(** * Browser verification scripts of mcg: [verify_bets.py] and
      [verify_realtime_updates.py]

    The two scripts under [jules-scratch/verification/] drive a browser through
    Playwright's synchronous API.  They are straight-line Python: every call
    either returns or raises, a raised exception leaves the function at once
    (the scripts contain no [try]), and the only scoped construct is the
    [with sync_playwright() as p:] block of [main].

    Playwright itself is imported, not part of the repository.  It is modelled
    as an interface [Playwright W] over an arbitrary world type [W] (browser,
    page, application under test, clock): each operation maps a world to an
    outcome and a next world.  The scripts are embedded as programs of a state
    and exception monad that records every call made at that boundary together
    with whether it returned, and the files written by [screenshot]. *)

From Stdlib Require Import ZArith List Bool.
From stdpp Require Import base gmap strings list fin_maps.

Local Open Scope Z_scope.
Local Open Scope string_scope.
Local Open Scope list_scope.

(** ** Values crossing the automation boundary *)

Definition Browser := nat.
Definition Page := nat.
Definition Image := list Byte.byte.

(** Exception classes a Playwright call can raise: [playwright.sync_api.Error],
    its subclass [TimeoutError], and the [AssertionError] of [expect]. *)
Inductive exn : Type :=
| Error
| TimeoutError
| AssertionError.

Inductive outcome (A : Type) : Type :=
| Returns (a : A)
| Raises (e : exn).
Arguments Returns {A} a.
Arguments Raises {A} e.

Definition returned {A : Type} (r : outcome A) : bool :=
  match r with Returns _ => true | Raises _ => false end.

(** A locator is a description of how to find an element on a page; building
    one does not query the page. *)
Inductive Selector : Type :=
| ByRole (role name : string)
| ByText (text : string).

Record Locator : Type := mkLocator { loc_page : Page; loc_selector : Selector }.

Definition get_by_role (page : Page) (role name : string) : Locator :=
  mkLocator page (ByRole role name).

Definition get_by_text (page : Page) (text : string) : Locator :=
  mkLocator page (ByText text).

(** The calls the scripts make, with the arguments they pass.  [timeout] is the
    keyword argument of the Python API: [None] when the script leaves it out. *)
Inductive Call : Type :=
| CStart
| CStop
| CLaunch (headless : bool)
| CNewPage (browser : Browser)
| CClose (browser : Browser)
| CGoto (page : Page) (url : string) (timeout : option Z)
| CClick (target : Locator) (timeout : option Z)
| CToBeVisible (target : Locator) (timeout : option Z)
| CScreenshot (page : Page) (path : string) (timeout : option Z)
| CSleep (secs : Z).

(** One log entry: the call and whether it returned ([true]) or raised. *)
Definition Entry : Type := Call * bool.

(** The capability provider.  [pw_start]/[pw_stop] are the [__enter__] and
    [__exit__] of [sync_playwright()]. *)
Record Playwright (W : Type) : Type := mkPlaywright {
  pw_start : W -> outcome unit * W;
  pw_stop : W -> W;
  pw_launch : bool -> W -> outcome Browser * W;
  pw_new_page : Browser -> W -> outcome Page * W;
  pw_close : Browser -> W -> outcome unit * W;
  pw_goto : Page -> string -> option Z -> W -> outcome unit * W;
  pw_click : Locator -> option Z -> W -> outcome unit * W;
  pw_to_be_visible : Locator -> option Z -> W -> outcome unit * W;
  pw_screenshot : Page -> option Z -> W -> outcome Image * W;
  pw_sleep : Z -> W -> W
}.
Arguments pw_start {W} _ _.
Arguments pw_stop {W} _ _.
Arguments pw_launch {W} _ _ _.
Arguments pw_new_page {W} _ _ _.
Arguments pw_close {W} _ _ _.
Arguments pw_goto {W} _ _ _ _ _.
Arguments pw_click {W} _ _ _ _.
Arguments pw_to_be_visible {W} _ _ _ _.
Arguments pw_screenshot {W} _ _ _ _.
Arguments pw_sleep {W} _ _ _.

(** ** The script monad *)

Record State (W : Type) : Type := mkState {
  world : W;
  files : gmap string Image;
  calls : list Entry
}.
Arguments mkState {W} _ _ _.
Arguments world {W} _.
Arguments files {W} _.
Arguments calls {W} _.

Definition M (W A : Type) : Type := State W -> outcome A * State W.

Definition ret {W A : Type} (a : A) : M W A := fun st => (Returns a, st).

Definition bind {W A B : Type} (m : M W A) (k : A -> M W B) : M W B :=
  fun st =>
    match m st with
    | (Returns a, st1) => k a st1
    | (Raises e, st1) => (Raises e, st1)
    end.

Declare Scope script_scope.
Delimit Scope script_scope with script.
Notation "x <- m ;; k" := (bind m (fun x => k))
  (at level 100, m at next level, right associativity) : script_scope.
Notation "m ;; k" := (bind m (fun _ => k))
  (at level 100, right associativity) : script_scope.
Local Open Scope script_scope.

(** A fresh run: nothing logged yet, the file system as found. *)
Definition init {W : Type} (w : W) (fs : gmap string Image) : State W :=
  mkState w fs [].

Section Scripts.
Context {W : Type} (pw : Playwright W).

(** Hand one call to the boundary and log it with its outcome. *)
Definition perform {A : Type} (c : Call) (op : W -> outcome A * W) : M W A :=
  fun st =>
    let '(r, w1) := op (world st) in
    (r, mkState w1 (files st) (calls st ++ [(c, returned r)])).

Definition write_file (path : string) (img : Image) : M W unit :=
  fun st => (Returns tt, mkState (world st) (<[path := img]> (files st)) (calls st)).

Definition launch (headless : bool) : M W Browser :=
  perform (CLaunch headless) (pw_launch pw headless).

Definition new_page (browser : Browser) : M W Page :=
  perform (CNewPage browser) (pw_new_page pw browser).

Definition close (browser : Browser) : M W unit :=
  perform (CClose browser) (pw_close pw browser).

Definition goto (page : Page) (url : string) : M W unit :=
  perform (CGoto page url None) (pw_goto pw page url None).

Definition click (target : Locator) : M W unit :=
  perform (CClick target None) (pw_click pw target None).

(** [expect(target).to_be_visible(timeout=...)] *)
Definition to_be_visible (target : Locator) (timeout : option Z) : M W unit :=
  perform (CToBeVisible target timeout) (pw_to_be_visible pw target timeout).

(** [page.screenshot(path=...)]: on success the image is saved at [path]. *)
Definition screenshot (page : Page) (path : string) : M W unit :=
  img <- perform (CScreenshot page path None) (pw_screenshot pw page None) ;;
  write_file path img.

(** [time.sleep(secs)] *)
Definition sleep (secs : Z) : M W unit :=
  perform (CSleep secs) (fun w => (Returns tt, pw_sleep pw secs w)).

(** [with sync_playwright() as p: body]: the exit runs whether the body
    returns or raises, and the body's outcome is the block's outcome. *)
Definition with_sync_playwright {A : Type} (body : M W A) : M W A :=
  fun st =>
    match perform CStart (pw_start pw) st with
    | (Raises e, st1) => (Raises e, st1)
    | (Returns _, st1) =>
        let '(r, st2) := body st1 in
        let '(_, st3) :=
          perform CStop (fun w => (Returns tt, pw_stop pw w)) st2 in
        (r, st3)
    end.

(** *** verify_realtime_updates.py *)

Definition test_realtime_updates (page : Page) : M W unit :=
  goto page "http://127.0.0.1:3000" ;;
  let poker_online_link := get_by_role page "link" "Poker Online" in
  click poker_online_link ;;
  to_be_visible (get_by_role page "heading" "Poker Online") None ;;
  let connect_button := get_by_role page "button" "Connect" in
  click connect_button ;;
  to_be_visible (get_by_role page "cell" "Player") (Some 10000) ;;
  to_be_visible (get_by_text page "Pot: ") None ;;
  screenshot page "jules-scratch/verification/verification.png".

(** *** verify_bets.py *)

Definition verify_bets (page : Page) : M W unit :=
  goto page "http://localhost:3000/?autostart=true" ;;
  sleep 5 ;;
  screenshot page "jules-scratch/verification/verification.png".

Definition main : M W unit :=
  with_sync_playwright (
    browser <- launch true ;;
    page <- new_page browser ;;
    verify_bets page ;;
    close browser).

(** [if __name__ == "__main__": main()]: the command line is not read. *)
Definition run_module (argv : list string) : M W unit := main.

End Scripts.

(** ** Reading a log *)

(** [follows plan log r]: the run made the calls of [plan] in order, each one
    after the previous one returned, and stopped either at the end of the plan
    (outcome [Returns]) or at the first call that raised (outcome [Raises]). *)
Inductive follows {A : Type} : list Call -> list Entry -> outcome A -> Prop :=
| follows_end (a : A) :
    follows [] [] (Returns a)
| follows_step (c : Call) (plan : list Call) (log : list Entry) (r : outcome A) :
    follows plan log r -> follows (c :: plan) ((c, true) :: log) r
| follows_raise (c : Call) (plan : list Call) (e : exn) :
    follows (c :: plan) [(c, false)] (Raises e).

Definition is_screenshot (c : Call) : bool :=
  match c with CScreenshot _ _ _ => true | _ => false end.


Definition is_assertion (c : Call) : bool :=
  match c with CToBeVisible _ _ => true | _ => false end.

(** How many calls of a kind a log holds. *)
Definition count (kind : Call -> bool) (log : list Entry) : nat :=
  length (List.filter (fun e : Entry => kind e.1) log).

(** The entries of a log that raised. *)
Definition raised (log : list Entry) : list Call :=
  (List.filter (fun e : Entry => negb e.2) log).*1.

(** The log of a plan carried out to its end. *)
Definition all_returned (plan : list Call) : list Entry :=
  map (fun c => (c, true)) plan.

(** What a call that can make the script wait is bounded by, as far as the
    script says: [Some (Some ms)] for a timeout or duration the script wrote
    down, [Some None] for a waiting call that was given no timeout, [None] for
    a call that is not one of the waits (navigation, polling, sleep). *)
Definition suspension_bound (c : Call) : option (option Z) :=
  match c with
  | CGoto _ _ t => Some t
  | CClick _ t => Some t
  | CToBeVisible _ t => Some t
  | CSleep secs => Some (Some (1000 * secs))
  | _ => None
  end.

Definition explicitly_bounded (c : Call) : bool :=
  match suspension_bound c with
  | Some None => false
  | _ => true
  end.

(** The plans of the two scripts, read off their bodies. *)
Definition artifact_path : string := "jules-scratch/verification/verification.png".

Definition happy_path_calls (page : Page) : list Call :=
  [ CGoto page "http://127.0.0.1:3000" None;
    CClick (get_by_role page "link" "Poker Online") None;
    CToBeVisible (get_by_role page "heading" "Poker Online") None;
    CClick (get_by_role page "button" "Connect") None;
    CToBeVisible (get_by_role page "cell" "Player") (Some 10000);
    CToBeVisible (get_by_text page "Pot: ") None;
    CScreenshot page artifact_path None ].

Definition verify_bets_calls (page : Page) : list Call :=
  [ CGoto page "http://localhost:3000/?autostart=true" None;
    CSleep 5;
    CScreenshot page artifact_path None ].

Definition main_body_calls (browser : Browser) (page : Page) : list Call :=
  [ CLaunch true; CNewPage browser ] ++ verify_bets_calls page ++ [ CClose browser ].

(** The log of [main]: either [sync_playwright()] could not start, or the
    block's body ran between the context manager's entry and its exit. *)
Inductive main_log {A : Type} : list Entry -> outcome A -> Prop :=
| main_not_started (e : exn) :
    main_log [(CStart, false)] (Raises e)
| main_started (b : Browser) (pg : Page) (log : list Entry) (r : outcome A) :
    follows (main_body_calls b pg) log r ->
    main_log ((CStart, true) :: log ++ [(CStop, true)]) r.

(** Whether a call uses the browser mode and address written in the script:
    a launch is headless, a navigation goes to [url]. *)
Definition as_written (url : string) (c : Call) : bool :=
  match c with
  | CLaunch headless => headless
  | CGoto _ u _ => String.eqb u url
  | _ => true
  end.

Definition visits (url : string) (c : Call) : bool :=
  match c with CGoto _ u _ => String.eqb u url | _ => false end.

Definition launches (headless : bool) (c : Call) : bool :=
  match c with CLaunch h => Bool.eqb h headless | _ => false end.

(** ** Properties of a script *)

(** [executes m plan]: from any state, [m] appends to the log a run that
    follows [plan]. *)
Definition executes {W A : Type} (m : M W A) (plan : list Call) : Prop :=
  forall st, exists log,
    calls (m st).2 = calls st ++ log /\ follows plan log (m st).1.

(** [keeps_files m]: [m] writes no file. *)
Definition keeps_files {W A : Type} (m : M W A) : Prop :=
  forall st, files (m st).2 = files st.

(** [saves_artifact pw page m path]: when [m] returns, [path] holds an image
    the browser produced for [page] and no other file has changed; when [m]
    raises, no file has changed. *)
Definition saves_artifact {W : Type} (pw : Playwright W) (page : Page)
    (m : M W unit) (path : string) : Prop :=
  forall st,
    match (m st).1 with
    | Returns _ =>
        exists img w1 w2,
          pw_screenshot pw page None w1 = (Returns img, w2) /\
          files (m st).2 = <[path := img]> (files st)
    | Raises _ => files (m st).2 = files st
    end.

(** A run that returns made exactly one screenshot call, its last call, and
    the artifact exists; a run that raises stopped at the call that raised and
    wrote nothing. *)
Definition one_screenshot_unless_raised {W : Type} (m : M W unit) : Prop :=
  forall (w : W) (fs : gmap string Image),
    let run := m (init w fs) in
    match run.1 with
    | Returns _ =>
        count is_screenshot (calls run.2) = 1%nat /\
        (exists pre c, calls run.2 = pre ++ [(c, true)] /\ is_screenshot c = true) /\
        is_Some (files run.2 !! artifact_path)
    | Raises _ =>
        (exists pre c, calls run.2 = all_returned pre ++ [(c, false)]) /\
        count is_screenshot (List.filter (fun e : Entry => e.2) (calls run.2)) = 0%nat /\
        files run.2 = fs
    end.

(** A run that returns leaves at [artifact_path] the image the browser
    produced, whatever was there before, and every other path as it was; a
    run that raises leaves every path as it was. *)
Definition writes_only_artifact {W : Type} (pw : Playwright W) (page : Page)
    (m : M W unit) : Prop :=
  forall (w : W) (fs : gmap string Image),
    let run := m (init w fs) in
    match run.1 with
    | Returns _ =>
        (exists img w1 w2,
           pw_screenshot pw page None w1 = (Returns img, w2) /\
           files run.2 !! artifact_path = Some img) /\
        (forall p, p <> artifact_path -> files run.2 !! p = fs !! p)
    | Raises _ => files run.2 = fs
    end.

(** [quiet m]: no call made by [m] raises. *)
Definition quiet {W A : Type} (m : M W A) : Prop :=
  forall st, raised (calls (m st).2) = raised (calls st).

(** An application that behaves: every navigation completes, every element
    clicked is there, every condition waited for comes to hold, and the page
    can be captured. *)
Record responsive {W : Type} (pw : Playwright W) : Prop := mkResponsive {
  goto_returns : forall pg url t w, returned (pw_goto pw pg url t w).1 = true;
  click_returns : forall l t w, returned (pw_click pw l t w).1 = true;
  to_be_visible_returns : forall l t w, returned (pw_to_be_visible pw l t w).1 = true;
  screenshot_returns : forall pg t w, returned (pw_screenshot pw pg t w).1 = true
}.

(** ** Concrete worlds *)

Definition png : Image := [Byte.x89; Byte.x50; Byte.x4e; Byte.x47].

(** Everything works: the server is up and the backend pushes the game state. *)
Definition cooperative : Playwright unit :=
  {| pw_start w := (Returns tt, w);
     pw_stop w := w;
     pw_launch _ w := (Returns 1%nat, w);
     pw_new_page _ w := (Returns 2%nat, w);
     pw_close _ w := (Returns tt, w);
     pw_goto _ _ _ w := (Returns tt, w);
     pw_click _ _ w := (Returns tt, w);
     pw_to_be_visible _ _ w := (Returns tt, w);
     pw_screenshot _ _ w := (Returns png, w);
     pw_sleep _ w := w |}.

(** The backend never sends the game state: the "Player" cell never shows. *)
Definition stalled_backend : Playwright unit :=
  {| pw_start w := (Returns tt, w);
     pw_stop w := w;
     pw_launch _ w := (Returns 1%nat, w);
     pw_new_page _ w := (Returns 2%nat, w);
     pw_close _ w := (Returns tt, w);
     pw_goto _ _ _ w := (Returns tt, w);
     pw_click _ _ w := (Returns tt, w);
     pw_to_be_visible l _ w :=
       match loc_selector l with
       | ByRole role name =>
           if (String.eqb role "cell" && String.eqb name "Player")%bool
           then (Raises AssertionError, w) else (Returns tt, w)
       | ByText _ => (Returns tt, w)
       end;
     pw_screenshot _ _ w := (Returns png, w);
     pw_sleep _ w := w |}.

(** Nothing listens on the port: navigation is refused. *)
Definition server_down : Playwright unit :=
  {| pw_start w := (Returns tt, w);
     pw_stop w := w;
     pw_launch _ w := (Returns 1%nat, w);
     pw_new_page _ w := (Returns 2%nat, w);
     pw_close _ w := (Returns tt, w);
     pw_goto _ _ _ w := (Raises Error, w);
     pw_click _ _ w := (Returns tt, w);
     pw_to_be_visible _ _ w := (Returns tt, w);
     pw_screenshot _ _ w := (Returns png, w);
     pw_sleep _ w := w |}.

(** The same provider with other answers to every question about what is
    rendered: clicks on elements and visibility assertions. *)
Definition with_dom_answers {W : Type} (pw : Playwright W)
    (click' : Locator -> option Z -> W -> outcome unit * W)
    (visible' : Locator -> option Z -> W -> outcome unit * W) : Playwright W :=
  {| pw_start := pw_start pw;
     pw_stop := pw_stop pw;
     pw_launch := pw_launch pw;
     pw_new_page := pw_new_page pw;
     pw_close := pw_close pw;
     pw_goto := pw_goto pw;
     pw_click := click';
     pw_to_be_visible := visible';
     pw_screenshot := pw_screenshot pw;
     pw_sleep := pw_sleep pw |}.

(** ** Further vocabulary for the scripts *)




(** Whether a call acts on [page] and on nothing else: session calls (start,
    stop, launch, new page, close) do not. *)
Definition stays_on (page : Page) (c : Call) : bool :=
  match c with
  | CGoto pg _ _ => Nat.eqb pg page
  | CScreenshot pg _ _ => Nat.eqb pg page
  | CClick l _ => Nat.eqb (loc_page l) page
  | CToBeVisible l _ => Nat.eqb (loc_page l) page
  | CSleep _ => true
  | _ => false
  end.

(** The Playwright driver cannot be started. *)
Definition no_driver : Playwright unit :=
  {| pw_start w := (Raises Error, w);
     pw_stop w := w;
     pw_launch _ w := (Returns 1%nat, w);
     pw_new_page _ w := (Returns 2%nat, w);
     pw_close _ w := (Returns tt, w);
     pw_goto _ _ _ w := (Returns tt, w);
     pw_click _ _ w := (Returns tt, w);
     pw_to_be_visible _ _ w := (Returns tt, w);
     pw_screenshot _ _ w := (Returns png, w);
     pw_sleep _ w := w |}.

(** No chromium is installed: the launch fails. *)
Definition no_browser : Playwright unit :=
  {| pw_start w := (Returns tt, w);
     pw_stop w := w;
     pw_launch _ w := (Raises Error, w);
     pw_new_page _ w := (Returns 2%nat, w);
     pw_close _ w := (Returns tt, w);
     pw_goto _ _ _ w := (Returns tt, w);
     pw_click _ _ w := (Returns tt, w);
     pw_to_be_visible _ _ w := (Returns tt, w);
     pw_screenshot _ _ w := (Returns png, w);
     pw_sleep _ w := w |}.


(** Two runs, one after the other on the same files, as two invocations: the
    second starts where the first ended, whether the first returned or raised.
    The result pairs the two outcomes. *)
Definition one_after_the_other {W : Type} (m1 m2 : M W unit) (st : State W) :
    (outcome unit * outcome unit) * State W :=
  let '(r1, st1) := m1 st in
  let '(r2, st2) := m2 st1 in
  ((r1, r2), st2).

(** The files after two runs that both save at [artifact_path], the first on
    [page1] and the second on [page2], by the two outcomes: a second run that
    returns leaves its own screenshot, whatever the first did; a second run
    that raises leaves the files as the first run left them, that is with the
    first screenshot if the first returned and untouched if it raised too. *)
Definition files_after_two {W : Type} (pw : Playwright W) (page1 page2 : Page)
    (fs after_first : gmap string Image)
    (run : (outcome unit * outcome unit) * State W) : Prop :=
  match run.1 with
  | (_, Returns _) =>
      exists img w1 w2,
        pw_screenshot pw page2 None w1 = (Returns img, w2) /\
        files run.2 = <[artifact_path := img]> fs
  | (Returns _, Raises _) =>
      files run.2 = after_first /\
      exists img w1 w2,
        pw_screenshot pw page1 None w1 = (Returns img, w2) /\
        files run.2 = <[artifact_path := img]> fs
  | (Raises _, Raises _) => files run.2 = after_first /\ files run.2 = fs
  end.

(** The server answers the first navigation and is gone at the second: the
    world counts the navigations made. *)
Definition server_gone_after_first : Playwright nat :=
  {| pw_start w := (Returns tt, w);
     pw_stop w := w;
     pw_launch _ w := (Returns 1%nat, w);
     pw_new_page _ w := (Returns 2%nat, w);
     pw_close _ w := (Returns tt, w);
     pw_goto _ _ _ w :=
       match w with
       | O => (Returns tt, S w)
       | S _ => (Raises Error, S w)
       end;
     pw_click _ _ w := (Returns tt, w);
     pw_to_be_visible _ _ w := (Returns tt, w);
     pw_screenshot _ _ w := (Returns png, w);
     pw_sleep _ w := w |}.

(** * Lemmas *)

(** ** What a log that follows a plan looks like *)

Section Follows.
Context {A : Type}.
Implicit Types (plan : list Call) (log : list Entry) (r : outcome A).

Lemma follows_returns plan log (a : A) :
  follows plan log (Returns a) -> log = all_returned plan.
Proof.
  intros H. remember (Returns a) as r eqn:Er.
  induction H as [a' | c plan log r H IH | c plan e]; simpl.
  - reflexivity.
  - f_equal. auto.
  - discriminate Er.
Qed.

(** A raise is the last entry, and everything before it returned. *)
Lemma follows_raises plan log e :
  follows (A := A) plan log (Raises e) ->
  exists pre c post,
    plan = pre ++ c :: post /\ log = all_returned pre ++ [(c, false)].
Proof.
  intros H. remember (Raises e) as r eqn:Er.
  induction H as [a' | c plan log r H IH | c plan e'].
  - discriminate Er.
  - destruct (IH Er) as (pre & c' & post & -> & ->).
    exists (c :: pre), c', post. split; reflexivity.
  - exists [], c, plan. split; reflexivity.
Qed.


Lemma follows_prefix plan log r :
  follows plan log r -> log.*1 `prefix_of` plan.
Proof.
  intros H. induction H as [a | c plan log r H IH | c plan e]; simpl.
  - exists []. reflexivity.
  - destruct IH as [k ->]. exists k. reflexivity.
  - exists plan. reflexivity.
Qed.

Lemma follows_forallb (P : Call -> bool) plan log r :
  follows plan log r -> forallb P plan = true -> forallb P log.*1 = true.
Proof.
  intros H. induction H as [a | c plan log r H IH | c plan e]; simpl; intros HP.
  - reflexivity.
  - apply andb_prop in HP as [Hc Hplan]. rewrite Hc. simpl. auto.
  - apply andb_prop in HP as [Hc _]. rewrite Hc. reflexivity.
Qed.

End Follows.

Lemma follows_app_returns {A B : Type} p1 p2 l1 l2 (a : A) (r : outcome B) :
  follows p1 l1 (Returns a) -> follows p2 l2 r -> follows (p1 ++ p2) (l1 ++ l2) r.
Proof.
  intros H1 H2. remember (Returns a) as r1 eqn:Er1.
  induction H1 as [a' | c plan log r1 H IH | c plan e]; simpl.
  - exact H2.
  - constructor. auto.
  - discriminate Er1.
Qed.

Lemma follows_app_raises {A B : Type} p1 p2 l1 e :
  follows (A := A) p1 l1 (Raises e) -> follows (A := B) (p1 ++ p2) l1 (Raises e).
Proof.
  intros H1. remember (Raises e) as r1 eqn:Er1.
  induction H1 as [a' | c plan log r1 H IH | c plan e']; simpl.
  - discriminate Er1.
  - constructor. auto.
  - constructor.
Qed.

Lemma all_returned_app p1 p2 :
  all_returned (p1 ++ p2) = all_returned p1 ++ all_returned p2.
Proof. apply map_app. Qed.

Lemma all_returned_calls plan : (all_returned plan).*1 = plan.
Proof. induction plan as [| c plan IH]; simpl; [reflexivity | f_equal; exact IH]. Qed.


Lemma raised_app l1 l2 : raised (l1 ++ l2) = raised l1 ++ raised l2.
Proof. unfold raised. rewrite List.filter_app. apply fmap_app. Qed.

Lemma count_app kind l1 l2 :
  count kind (l1 ++ l2) = (count kind l1 + count kind l2)%nat.
Proof. unfold count. rewrite List.filter_app. apply length_app. Qed.

Lemma returned_all_returned plan :
  List.filter (fun e : Entry => e.2) (all_returned plan) = all_returned plan.
Proof. induction plan as [| c plan IH]; simpl; [reflexivity | f_equal; exact IH]. Qed.

Lemma count_all_returned kind plan :
  count kind (all_returned plan) = length (List.filter kind plan).
Proof.
  unfold count. induction plan as [| c plan IH]; simpl; [reflexivity | ].
  destruct (kind c); simpl; rewrite IH; reflexivity.
Qed.

Lemma omap_prefix {X Y : Type} (f : X -> option Y) (l1 l2 : list X) :
  l1 `prefix_of` l2 -> omap f l1 `prefix_of` omap f l2.
Proof. intros [k ->]. exists (omap f k). apply omap_app. Qed.

(** ** The program logic of the script monad *)

Section Logic.
Context {W : Type} (pw : Playwright W).

Lemma bind_perform {A B : Type} (c : Call) (op : W -> outcome A * W)
    (k : A -> M W B) (st : State W) :
  bind (perform c op) k st =
  match op (world st) with
  | (Returns a, w1) => k a (mkState w1 (files st) (calls st ++ [(c, true)]))
  | (Raises e, w1) => (Raises e, mkState w1 (files st) (calls st ++ [(c, false)]))
  end.
Proof. unfold bind, perform. destruct (op (world st)) as [[a | e] w1]; reflexivity. Qed.

Lemma bind_assoc {A B C : Type} (m : M W A) (k : A -> M W B) (h : B -> M W C)
    (st : State W) :
  bind (bind m k) h st = bind m (fun a => bind (k a) h) st.
Proof. unfold bind. destruct (m st) as [[a | e] st1]; reflexivity. Qed.

Lemma with_sync_playwright_unfold {A : Type} (body : M W A) (st : State W) :
  with_sync_playwright pw body st =
  match pw_start pw (world st) with
  | (Raises e, w0) => (Raises e, mkState w0 (files st) (calls st ++ [(CStart, false)]))
  | (Returns _, w0) =>
      let done := body (mkState w0 (files st) (calls st ++ [(CStart, true)])) in
      (done.1, mkState (pw_stop pw (world done.2)) (files done.2)
                       (calls done.2 ++ [(CStop, true)]))
  end.
Proof.
  unfold with_sync_playwright, perform.
  destruct (pw_start pw (world st)) as [[[] | e] w0]; simpl; [ | reflexivity].
  destruct (body _) as [r st2]. reflexivity.
Qed.

Lemma executes_perform {A : Type} (c : Call) (op : W -> outcome A * W) :
  executes (perform c op) [c].
Proof.
  intros st. unfold perform. destruct (op (world st)) as [[a | e] w1]; simpl.
  - exists [(c, true)]. split; [reflexivity | repeat constructor].
  - exists [(c, false)]. split; [reflexivity | constructor].
Qed.

Lemma executes_write_file path img : executes (write_file (W := W) path img) [].
Proof.
  intros st. exists []. simpl. rewrite app_nil_r.
  split; [reflexivity | constructor].
Qed.

Lemma executes_bind {A B : Type} (m : M W A) (k : A -> M W B) p1 p2 :
  executes m p1 -> (forall a, executes (k a) p2) -> executes (bind m k) (p1 ++ p2).
Proof.
  intros Hm Hk st. unfold bind.
  destruct (Hm st) as (l1 & Hl1 & Hf1).
  destruct (m st) as [[a | e] st1]; simpl in *.
  - destruct (Hk a st1) as (l2 & Hl2 & Hf2).
    exists (l1 ++ l2). split.
    + rewrite Hl2, Hl1. symmetry. apply app_assoc.
    + eapply follows_app_returns; eassumption.
  - exists l1. split; [assumption | ]. eapply follows_app_raises; eassumption.
Qed.

Lemma keeps_files_perform {A : Type} (c : Call) (op : W -> outcome A * W) :
  keeps_files (perform c op).
Proof. intros st. unfold perform. destruct (op (world st)) as [r w1]. reflexivity. Qed.

Lemma saves_artifact_screenshot page path :
  saves_artifact pw page (screenshot pw page path) path.
Proof.
  intros st. unfold screenshot. rewrite bind_perform.
  destruct (pw_screenshot pw page None (world st)) as [[img | e] w1] eqn:Hshot; simpl.
  - exists img, (world st), w1. split; [exact Hshot | reflexivity].
  - reflexivity.
Qed.

Lemma saves_artifact_bind {A : Type} page (m : M W A) (k : A -> M W unit) path :
  keeps_files m -> (forall a, saves_artifact pw page (k a) path) ->
  saves_artifact pw page (bind m k) path.
Proof.
  intros Hm Hk st. unfold bind. specialize (Hm st).
  destruct (m st) as [[a | e] st1]; simpl in *.
  - specialize (Hk a st1). rewrite Hm in Hk. exact Hk.
  - exact Hm.
Qed.

Lemma quiet_perform {A : Type} (c : Call) (op : W -> outcome A * W) :
  (forall w, returned (op w).1 = true) -> quiet (perform c op).
Proof.
  intros Hop st. unfold perform. specialize (Hop (world st)).
  destruct (op (world st)) as [r w1]. simpl in *.
  rewrite raised_app, Hop. apply app_nil_r.
Qed.

Lemma quiet_bind {A B : Type} (m : M W A) (k : A -> M W B) :
  quiet m -> (forall a, quiet (k a)) -> quiet (bind m k).
Proof.
  intros Hm Hk st. unfold bind. specialize (Hm st).
  destruct (m st) as [[a | e] st1]; simpl in *.
  - rewrite Hk. exact Hm.
  - exact Hm.
Qed.

(** *** The scripts against their plans *)

Ltac step_through :=
  repeat (apply (executes_bind _ _ [_]); [apply executes_perform | intros _]);
  unfold screenshot;
  apply (executes_bind _ _ [_] []); [apply executes_perform | intros img];
  apply executes_write_file.

Lemma test_realtime_updates_executes page :
  executes (test_realtime_updates pw page) (happy_path_calls page).
Proof. unfold test_realtime_updates, happy_path_calls. step_through. Qed.

Lemma verify_bets_executes page :
  executes (verify_bets pw page) (verify_bets_calls page).
Proof. unfold verify_bets, verify_bets_calls. step_through. Qed.

Lemma test_realtime_updates_saves page :
  saves_artifact pw page (test_realtime_updates pw page) artifact_path.
Proof.
  unfold test_realtime_updates.
  repeat (apply saves_artifact_bind; [apply keeps_files_perform | intros _]).
  apply saves_artifact_screenshot.
Qed.

Lemma verify_bets_saves page :
  saves_artifact pw page (verify_bets pw page) artifact_path.
Proof.
  unfold verify_bets.
  repeat (apply saves_artifact_bind; [apply keeps_files_perform | intros _]).
  apply saves_artifact_screenshot.
Qed.

(** With a responsive application no step of [test_realtime_updates] raises. *)
Lemma responsive_never_raises page (w : W) (fs : gmap string Image) :
  responsive pw ->
  raised (calls (test_realtime_updates pw page (init w fs)).2) = [].
Proof.
  intros [Hgoto Hclick Hvisible Hshot].
  assert (Hquiet : quiet (test_realtime_updates pw page)).
  { unfold test_realtime_updates, goto, click, to_be_visible, screenshot.
    repeat (apply quiet_bind; [apply quiet_perform; auto | intros ?]).
    intros st. reflexivity. }
  rewrite Hquiet. reflexivity.
Qed.

(** *** The run of [main] *)

Lemma verify_then_close_executes (b : Browser) (pg : Page) :
  executes (verify_bets pw pg ;; close pw b) (verify_bets_calls pg ++ [CClose b]).
Proof.
  apply executes_bind; [apply verify_bets_executes | intros _].
  apply executes_perform.
Qed.

(** The body of the [with] block, from any state. *)
Lemma main_body_follows (st : State W) :
  let done :=
    (browser <- launch pw true ;;
     page <- new_page pw browser ;;
     verify_bets pw page ;;
     close pw browser) st in
  exists b pg log,
    calls done.2 = calls st ++ log /\ follows (main_body_calls b pg) log done.1.
Proof.
  unfold launch. rewrite bind_perform.
  destruct (pw_launch pw true (world st)) as [[b | e] w1]; simpl.
  2:{ exists 0%nat, 0%nat, [(CLaunch true, false)]. split; [reflexivity | constructor]. }
  unfold new_page. rewrite bind_perform. simpl.
  destruct (pw_new_page pw b w1) as [[pg | e] w2]; simpl.
  2:{ exists b, 0%nat, [(CLaunch true, true); (CNewPage b, false)].
      rewrite <- app_assoc. split; [reflexivity | repeat constructor]. }
  match goal with
  | |- context [bind ?m ?k ?s] =>
      destruct (verify_then_close_executes b pg s) as (log & Hlog & Hf);
      destruct (bind m k s) as [r st3]
  end.
  simpl in *.
  exists b, pg, ((CLaunch true, true) :: (CNewPage b, true) :: log). split.
  - rewrite Hlog, <- !app_assoc. reflexivity.
  - unfold main_body_calls. simpl. do 2 constructor. exact Hf.
Qed.

Lemma main_shape (st : State W) :
  exists log,
    calls (main pw st).2 = calls st ++ log /\ main_log log (main pw st).1.
Proof.
  unfold main. rewrite with_sync_playwright_unfold.
  destruct (pw_start pw (world st)) as [[[] | e] w0]; simpl.
  2:{ exists [(CStart, false)]. split; [reflexivity | constructor]. }
  match goal with
  | |- context [bind ?m ?k ?s] =>
      destruct (main_body_follows s) as (b & pg & log & Hlog & Hf);
      simpl in Hlog, Hf; destruct (bind m k s) as [r st3]
  end.
  simpl in *.
  exists ((CStart, true) :: log ++ [(CStop, true)]). split.
  - rewrite Hlog, <- !app_assoc. reflexivity.
  - apply (main_started b pg). exact Hf.
Qed.

(** *** From plan and file policy to the artifact properties *)

Lemma one_screenshot_from_plan page (m : M W unit) (front : list Call) :
  executes m (front ++ [CScreenshot page artifact_path None]) ->
  forallb (fun c => negb (is_screenshot c)) front = true ->
  saves_artifact pw page m artifact_path ->
  one_screenshot_unless_raised m.
Proof.
  intros Hexec Hfront Hsave w fs run.
  destruct (Hexec (init w fs)) as (log & Hlog & Hf).
  specialize (Hsave (init w fs)).
  fold run in Hlog, Hf, Hsave. simpl in Hlog, Hsave. rewrite Hlog.
  assert (Hnone : length (List.filter is_screenshot front) = 0%nat).
  { clear -Hfront. induction front as [| c front IH]; [reflexivity | ].
    simpl in *. apply andb_prop in Hfront as [Hc Hrest].
    destruct (is_screenshot c); [discriminate Hc | auto]. }
  destruct run.1 as [[] | e].
  - apply follows_returns in Hf. rewrite Hf, all_returned_app.
    split; [ | split].
    + rewrite count_app, count_all_returned, Hnone. reflexivity.
    + exists (all_returned front), (CScreenshot page artifact_path None).
      split; reflexivity.
    + destruct Hsave as (img & _ & _ & _ & ->). rewrite lookup_insert_eq. eauto.
  - destruct (follows_raises _ _ _ Hf) as (pre & c & post & Hplan & ->).
    split; [eauto | split; [ | exact Hsave]].
    rewrite List.filter_app, returned_all_returned. simpl. rewrite app_nil_r.
    rewrite count_all_returned.
    assert (Hpre : pre `prefix_of` front).
    { clear -Hplan. revert pre Hplan.
      induction front as [| f front IH]; intros pre Hplan.
      - destruct pre as [| p pre]; [exists []; reflexivity | ].
        simpl in Hplan. injection Hplan as _ Hplan.
        destruct pre; discriminate Hplan.
      - destruct pre as [| p pre]; simpl in Hplan.
        + exists (f :: front). reflexivity.
        + injection Hplan as <- Hplan. destruct (IH _ Hplan) as [k ->].
          exists k. reflexivity. }
    destruct Hpre as [k ->]. rewrite List.filter_app, length_app in Hnone.
    destruct (length (List.filter is_screenshot pre)); [reflexivity | discriminate Hnone].
Qed.

Lemma writes_only_artifact_from_saves page (m : M W unit) :
  saves_artifact pw page m artifact_path -> writes_only_artifact pw page m.
Proof.
  intros Hsave w fs run. specialize (Hsave (init w fs)).
  fold run in Hsave. simpl in Hsave.
  destruct run.1 as [[] | e]; [ | exact Hsave].
  destruct Hsave as (img & w1 & w2 & Hshot & ->). split.
  - exists img, w1, w2. split; [exact Hshot | apply lookup_insert_eq].
  - intros p Hp. apply lookup_insert_ne. congruence.
Qed.

End Logic.

(** ** Facts about the log of [main] *)




Lemma main_log_as_written {A : Type} (log : list Entry) (r : outcome A) :
  main_log log r ->
  forallb (as_written "http://localhost:3000/?autostart=true") log.*1 = true.
Proof.
  intros [e | b pg body r' Hf]; [reflexivity | ].
  simpl. rewrite fmap_app, forallb_app.
  rewrite (follows_forallb _ _ _ _ Hf); reflexivity.
Qed.

(** * The claims *)

(** ** Runs on concrete worlds *)

Example cooperative_main_log :
  calls (main cooperative (init tt ∅)).2 =
  (CStart, true) :: all_returned (main_body_calls 1%nat 2%nat) ++ [(CStop, true)].
Proof. reflexivity. Qed.

(** A screenshot already at the path is replaced, other files are kept. *)
Example screenshot_replaces_old_file :
  let old : Image := [Byte.x00] in
  let fs : gmap string Image := {[ artifact_path := old; "notes.txt" := [] ]} in
  files (verify_bets cooperative 2%nat (init tt fs)).2 =
  {[ artifact_path := png; "notes.txt" := [] ]}.
Proof. vm_compute. reflexivity. Qed.

(** A raise by [browser.close()] itself comes after the screenshot is saved. *)
Example close_may_raise_after_artifact :
  let pw := mkPlaywright unit (pw_start cooperative) (pw_stop cooperative)
              (pw_launch cooperative) (pw_new_page cooperative)
              (fun _ w => (Raises Error, w)) (pw_goto cooperative)
              (pw_click cooperative) (pw_to_be_visible cooperative)
              (pw_screenshot cooperative) (pw_sleep cooperative) in
  let run := main pw (init tt ∅) in
  run.1 = Raises Error /\ raised (calls run.2) = [CClose 1%nat] /\
  files run.2 !! artifact_path = Some png.
Proof. vm_compute. repeat split. Qed.

(** ** C1: one screenshot per run *)

(** C1, as stated, fails: with a backend that never sends the game state the
    "Player" assertion raises, the screenshot line is never reached and the
    run ends with no screenshot call and no artifact. *)
Lemma stalled_backend_leaves_no_screenshot :
  let run := test_realtime_updates stalled_backend 2%nat (init tt ∅) in
  run.1 = Raises AssertionError /\
  count is_screenshot (calls run.2) = 0%nat /\
  count is_screenshot (calls run.2) <> 1%nat /\
  files run.2 !! artifact_path = None.
Proof. vm_compute. repeat split. discriminate. Qed.

(** C1, amended.  In both scripts a run in which every step returns takes
    exactly one screenshot, as its last step, and the artifact exists.  When a
    step or assertion raises, the remaining steps are short-circuited together
    with the screenshot: the raising call is the last one made, no screenshot
    has returned and no file has been written. *)
Theorem screenshot_only_when_all_steps_return {W : Type} (pw : Playwright W)
    (page : Page) :
  one_screenshot_unless_raised (test_realtime_updates pw page) /\
  one_screenshot_unless_raised (verify_bets pw page).
Proof.
  split.
  - apply (one_screenshot_from_plan pw page _
             (removelast (happy_path_calls page))).
    + apply test_realtime_updates_executes.
    + reflexivity.
    + apply test_realtime_updates_saves.
  - apply (one_screenshot_from_plan pw page _
             (removelast (verify_bets_calls page))).
    + apply verify_bets_executes.
    + reflexivity.
    + apply verify_bets_saves.
Qed.

(** ** C2: closing the browser *)




(** ** C4: the happy path *)



(** ** C6: the artifact file *)

(** C6, as stated, fails: when nothing listens on the port the navigation
    raises and the run of [verify_bets] writes no file at all. *)
Lemma server_down_writes_no_file :
  let run := verify_bets server_down 2%nat (init tt ∅) in
  run.1 = Raises Error /\ files run.2 = ∅ /\ size (files run.2) <> 1%nat.
Proof. vm_compute. repeat split. discriminate. Qed.

(** C6, amended.  A run of either script in which no step raises leaves
    exactly one file changed: the image the browser produced, at the path the
    script passes to [screenshot] (jules-scratch/verification/verification.png),
    in place of whatever was there; every other path is untouched.  A run in
    which a step raises changes no file. *)
Theorem artifact_is_the_only_file_written {W : Type} (pw : Playwright W)
    (page : Page) :
  writes_only_artifact pw page (test_realtime_updates pw page) /\
  writes_only_artifact pw page (verify_bets pw page).
Proof.
  split; apply writes_only_artifact_from_saves.
  - apply test_realtime_updates_saves.
  - apply verify_bets_saves.
Qed.

(** ** C7: configuration *)

(** C7, as stated, fails: whatever is put on the command line, the run
    launches headless and opens the address written in the script. *)
Lemma command_line_is_ignored :
  let argv := ["--base-url"; "http://staging.example:8080/"; "--headed"] in
  let run := run_module cooperative argv (init tt ∅) in
  (calls run.2).*1 = CStart :: main_body_calls 1%nat 2%nat ++ [CStop] /\
  existsb (visits "http://staging.example:8080/") (calls run.2).*1 = false /\
  existsb (launches false) (calls run.2).*1 = false /\
  existsb (visits "http://localhost:3000/?autostart=true") (calls run.2).*1 = true /\
  existsb (launches true) (calls run.2).*1 = true.
Proof. vm_compute. repeat split. Qed.

(** C7, amended.  A run takes no base URL and no headless flag: the module's
    entry point ignores its arguments, every launch is headless and every
    navigation of [main] goes to http://localhost:3000/?autostart=true; every
    navigation of [test_realtime_updates] goes to http://127.0.0.1:3000. *)
Theorem address_and_mode_are_fixed {W : Type} (pw : Playwright W)
    (argv : list string) (page : Page) (w : W) (fs : gmap string Image) :
  run_module pw argv = run_module pw [] /\
  forallb (as_written "http://localhost:3000/?autostart=true")
          (calls (run_module pw argv (init w fs)).2).*1 = true /\
  forallb (as_written "http://127.0.0.1:3000")
          (calls (test_realtime_updates pw page (init w fs)).2).*1 = true.
Proof.
  split; [reflexivity | split].
  - unfold run_module.
    destruct (main_shape pw (init w fs)) as (log & -> & Hmain).
    exact (main_log_as_written _ _ Hmain).
  - destruct (test_realtime_updates_executes pw page (init w fs)) as (log & -> & Hf).
    apply (follows_forallb _ _ _ _ Hf). reflexivity.
Qed.

(** ** C9: bounds of the waits *)

(** C9, as stated, fails: the first suspension of [test_realtime_updates],
    the navigation, is called without any timeout. *)
Lemma navigation_has_no_stated_timeout :
  let run := test_realtime_updates cooperative 2%nat (init tt ∅) in
  (calls run.2).*1 !! 0%nat = Some (CGoto 2%nat "http://127.0.0.1:3000" None) /\
  suspension_bound (CGoto 2%nat "http://127.0.0.1:3000" None) = Some None /\
  forallb explicitly_bounded (calls run.2).*1 = false.
Proof. vm_compute. repeat split. Qed.

(** C9, amended.  Of the points where a run can suspend, the scripts bound
    two themselves: the "Player" cell assertion (timeout 10000 ms) and the
    sleep of [verify_bets] (5 s).  The navigations, the two clicks and the
    other two visibility assertions are called with no timeout argument.  In
    order, the bounds stated by a complete run are none, none, none, none,
    10000, none for [test_realtime_updates] and none, 5000 for [verify_bets];
    a run cut short by a raise states a prefix of them. *)
Theorem bounds_stated_by_the_scripts {W : Type} (pw : Playwright W)
    (page : Page) (w : W) (fs : gmap string Image) :
  let stated (run : outcome unit * State W) :=
    omap suspension_bound (calls run.2).*1 in
  let realtime := test_realtime_updates pw page (init w fs) in
  let bets := verify_bets pw page (init w fs) in
  stated realtime `prefix_of` [None; None; None; None; Some 10000; None] /\
  stated bets `prefix_of` [None; Some 5000] /\
  match realtime.1 with
  | Returns _ => stated realtime = [None; None; None; None; Some 10000; None]
  | Raises _ => True
  end /\
  match bets.1 with
  | Returns _ => stated bets = [None; Some 5000]
  | Raises _ => True
  end.
Proof.
  intros stated realtime bets. subst stated.
  destruct (test_realtime_updates_executes pw page (init w fs)) as (l1 & Hl1 & Hf1).
  destruct (verify_bets_executes pw page (init w fs)) as (l2 & Hl2 & Hf2).
  fold realtime in Hl1, Hf1. fold bets in Hl2, Hf2.
  simpl in Hl1, Hl2. rewrite Hl1, Hl2.
  split; [ | split; [ | split]].
  - exact (omap_prefix suspension_bound _ _ (follows_prefix _ _ _ Hf1)).
  - exact (omap_prefix suspension_bound _ _ (follows_prefix _ _ _ Hf2)).
  - destruct realtime.1 as [a | e]; [ | exact I].
    rewrite (follows_returns _ _ _ Hf1), all_returned_calls. reflexivity.
  - destruct bets.1 as [a | e]; [ | exact I].
    rewrite (follows_returns _ _ _ Hf2), all_returned_calls. reflexivity.
Qed.

(** ** C10: [verify_bets] asserts nothing *)

(** C10. [verify_bets] asserts nothing about the application: whatever is
    rendered, if the navigation to the fixed URL returns and the screenshot
    returns, the run returns.  Its log holds no assertion, and swapping the
    answers to every click and visibility question leaves the run unchanged. *)
Theorem verify_bets_asserts_nothing {W : Type} (pw : Playwright W) (page : Page)
    (w w1 w2 : W) (img : Image) (fs : gmap string Image) :
  pw_goto pw page "http://localhost:3000/?autostart=true" None w = (Returns tt, w1) ->
  pw_screenshot pw page None (pw_sleep pw 5 w1) = (Returns img, w2) ->
  let run := verify_bets pw page (init w fs) in
  run.1 = Returns tt /\
  calls run.2 = all_returned (verify_bets_calls page) /\
  count is_assertion (calls run.2) = 0%nat /\
  files run.2 = <[artifact_path := img]> fs /\
  forall click' visible',
    verify_bets (with_dom_answers pw click' visible') page (init w fs) = run.
Proof.
  intros Hgoto Hshot run.
  assert (Hrun : run = (Returns tt,
            mkState w2 (<[artifact_path := img]> fs)
                    (all_returned (verify_bets_calls page)))).
  { subst run. unfold verify_bets, goto, sleep, screenshot.
    rewrite bind_perform. simpl. rewrite Hgoto.
    rewrite bind_perform. simpl.
    rewrite bind_perform. simpl. rewrite Hshot. reflexivity. }
  assert (Hsame : forall click' visible',
            verify_bets (with_dom_answers pw click' visible') page (init w fs) = run)
    by reflexivity.
  rewrite Hrun in *. simpl. repeat split. exact Hsame.
Qed.

Lemma verify_bets_asserts_nothing_witness :
  let run := verify_bets stalled_backend 2%nat (init tt ∅) in
  run.1 = Returns tt /\
  calls run.2 = all_returned (verify_bets_calls 2%nat) /\
  count is_assertion (calls run.2) = 0%nat /\
  files run.2 = <[artifact_path := png]> ∅ /\
  forall click' visible',
    verify_bets (with_dom_answers stalled_backend click' visible') 2%nat (init tt ∅) = run.
Proof.
  apply (verify_bets_asserts_nothing stalled_backend 2%nat tt tt tt png ∅);
    reflexivity.
Defined.

(** * Further properties of the scripts *)

(** ** Steps, their order and the step that fails *)

Lemma follows_index {A : Type} (plan : list Call) (log : list Entry) (r : outcome A) :
  follows plan log r -> plan <> [] ->
  exists k c,
    plan !! k = Some c /\
    log = all_returned (take k plan) ++ [(c, returned r)] /\
    (returned r = true -> S k = length plan).
Proof.
  intros Hf Hne. destruct r as [a | e].
  - apply follows_returns in Hf. subst log.
    destruct (exists_last Hne) as (front & c & ->).
    exists (length front), c. split; [ | split].
    + apply list_lookup_middle. reflexivity.
    + rewrite take_app_length. apply all_returned_app.
    + intros _. rewrite length_app. simpl. lia.
  - destruct (follows_raises _ _ _ Hf) as (pre & c & post & -> & ->).
    exists (length pre), c. split; [ | split].
    + apply list_lookup_middle. reflexivity.
    + rewrite take_app_length. reflexivity.
    + discriminate.
Qed.


Section More.
Context {W : Type} (pw : Playwright W).

(** X1. Both scripts make their calls in source order and stop at the first
    one that raises: the log is the first [k] steps of the plan, all returned,
    followed by step [k] with the outcome of the run; a run that returns has
    [k] at the last step (6 of 0..6, resp. 2 of 0..2). *)
Theorem steps_in_order_up_to_failure (page : Page) (w : W) (fs : gmap string Image) :
  let realtime := test_realtime_updates pw page (init w fs) in
  let bets := verify_bets pw page (init w fs) in
  (exists k c,
     happy_path_calls page !! k = Some c /\
     calls realtime.2 =
       all_returned (take k (happy_path_calls page)) ++ [(c, returned realtime.1)] /\
     match realtime.1 with Returns _ => k = 6%nat | Raises _ => (k <= 6)%nat end) /\
  (exists k c,
     verify_bets_calls page !! k = Some c /\
     calls bets.2 =
       all_returned (take k (verify_bets_calls page)) ++ [(c, returned bets.1)] /\
     match bets.1 with Returns _ => k = 2%nat | Raises _ => (k <= 2)%nat end).
Proof.
  intros realtime bets. split.
  - destruct (test_realtime_updates_executes pw page (init w fs)) as (log & Hlog & Hf).
    fold realtime in Hlog, Hf. simpl in Hlog.
    destruct (follows_index _ _ _ Hf) as (k & c & Hk & Hshape & Hlast); [discriminate | ].
    exists k, c. rewrite Hlog. split; [exact Hk | split; [exact Hshape | ]].
    destruct realtime.1 as [[] | e].
    + specialize (Hlast eq_refl). simpl in Hlast. lia.
    + apply lookup_lt_Some in Hk. simpl in Hk. lia.
  - destruct (verify_bets_executes pw page (init w fs)) as (log & Hlog & Hf).
    fold bets in Hlog, Hf. simpl in Hlog.
    destruct (follows_index _ _ _ Hf) as (k & c & Hk & Hshape & Hlast); [discriminate | ].
    exists k, c. rewrite Hlog. split; [exact Hk | split; [exact Hshape | ]].
    destruct bets.1 as [[] | e].
    + specialize (Hlast eq_refl). simpl in Hlast. lia.
    + apply lookup_lt_Some in Hk. simpl in Hk. lia.
Qed.

(** X2. Both scripts act on the page they are given and on nothing else:
    every call they make is a call on that page or the sleep; they never
    start or stop Playwright, launch or close a browser, or open a page. *)
Theorem scripts_stay_on_their_page (page : Page) (w : W) (fs : gmap string Image) :
  forallb (stays_on page) (calls (test_realtime_updates pw page (init w fs)).2).*1 = true /\
  forallb (stays_on page) (calls (verify_bets pw page (init w fs)).2).*1 = true.
Proof.
  split.
  - destruct (test_realtime_updates_executes pw page (init w fs)) as (log & -> & Hf).
    apply (follows_forallb _ _ _ _ Hf). simpl. rewrite Nat.eqb_refl. reflexivity.
  - destruct (verify_bets_executes pw page (init w fs)) as (log & -> & Hf).
    apply (follows_forallb _ _ _ _ Hf). simpl. rewrite Nat.eqb_refl. reflexivity.
Qed.

(** ** Where an exception comes from *)












End More.


Section Session.
Context {W : Type} (pw : Playwright W).

(** ** Setting the session up in [main] *)

(** X5. The setup of [main], case by case.  If [sync_playwright()] cannot
    start, nothing else is called, not even the exit.  If the launch or the
    opening of the page raises, no page call is made, the exit runs, no file
    is touched and that exception is the outcome.  Otherwise [verify_bets] runs
    on the page that [new_page] returned and [close] is called on the browser
    that [launch] returned, between the three setup calls and the exit. *)
Theorem main_session_setup (w : W) (fs : gmap string Image) :
  let run := main pw (init w fs) in
  match pw_start pw w with
  | (Raises e, w0) => run = (Raises e, mkState w0 fs [(CStart, false)])
  | (Returns _, w0) =>
      match pw_launch pw true w0 with
      | (Raises e, w1) =>
          run = (Raises e,
                 mkState (pw_stop pw w1) fs
                   [(CStart, true); (CLaunch true, false); (CStop, true)])
      | (Returns b, w1) =>
          match pw_new_page pw b w1 with
          | (Raises e, w2) =>
              run = (Raises e,
                     mkState (pw_stop pw w2) fs
                       [(CStart, true); (CLaunch true, true);
                        (CNewPage b, false); (CStop, true)])
          | (Returns pg, w2) =>
              exists rest,
                calls run.2 =
                  [(CStart, true); (CLaunch true, true); (CNewPage b, true)]
                  ++ rest ++ [(CStop, true)] /\
                follows (verify_bets_calls pg ++ [CClose b]) rest run.1
          end
      end
  end.
Proof.
  intros run. subst run. unfold main. rewrite with_sync_playwright_unfold. simpl.
  destruct (pw_start pw w) as [[[] | e] w0]; [ | reflexivity].
  unfold launch. rewrite bind_perform. simpl.
  destruct (pw_launch pw true w0) as [[b | e] w1]; [ | reflexivity].
  unfold new_page. rewrite bind_perform. simpl.
  destruct (pw_new_page pw b w1) as [[pg | e] w2]; [ | reflexivity].
  match goal with
  | |- context [bind ?m ?k ?s] =>
      destruct (verify_then_close_executes pw b pg s) as (rest & Hlog & Hf);
      destruct (bind m k s) as [r st3]
  end.
  simpl in *. exists rest. split; [ | exact Hf].
  rewrite Hlog. reflexivity.
Qed.

(** ** The files of [main] *)

(** X6. [main] changes no file but the artifact, on any path.  The artifact
    is written exactly when the screenshot call returned, so also in a run
    that then raises in [browser.close()]; a run of [main] that returns has
    left the artifact. *)
Theorem main_touches_only_the_artifact (w : W) (fs : gmap string Image) :
  let run := main pw (init w fs) in
  delete artifact_path (files run.2) = delete artifact_path fs /\
  match List.filter (fun e : Entry => is_screenshot e.1 && e.2) (calls run.2) with
  | [] => files run.2 = fs
  | _ :: _ =>
      exists pg img w1 w2,
        pw_screenshot pw pg None w1 = (Returns img, w2) /\
        files run.2 = <[artifact_path := img]> fs
  end /\
  match run.1 with
  | Returns _ => is_Some (files run.2 !! artifact_path)
  | Raises _ => True
  end.
Proof.
  intros run. subst run.
  unfold main, verify_bets, launch, new_page, goto, sleep, screenshot, close.
  rewrite with_sync_playwright_unfold. simpl.
  destruct (pw_start pw w) as [[[] | e] w0]; [ | repeat split].
  rewrite bind_perform. simpl.
  destruct (pw_launch pw true w0) as [[b | e] w1]; [ | repeat split].
  rewrite bind_perform. simpl.
  destruct (pw_new_page pw b w1) as [[pg | e] w2]; [ | repeat split].
  rewrite !bind_assoc, bind_perform. simpl.
  destruct (pw_goto pw pg _ None w2) as [[[] | e] w3]; [ | repeat split].
  rewrite !bind_assoc, bind_perform. simpl. rewrite !bind_assoc, bind_perform. simpl.
  destruct (pw_screenshot pw pg None (pw_sleep pw 5 w3)) as [[img | e] w4] eqn:Hshot;
    [ | repeat split].
  unfold bind, write_file, perform. simpl.
  destruct (pw_close pw b w4) as [[[] | e] w5]; simpl.
  - split; [apply delete_insert_eq | split].
    + exists pg, img, (pw_sleep pw 5 w3), w4. split; [exact Hshot | reflexivity].
    + rewrite lookup_insert_eq. eauto.
  - split; [apply delete_insert_eq | split; [ | exact I]].
    exists pg, img, (pw_sleep pw 5 w3), w4. split; [exact Hshot | reflexivity].
Qed.

(** ** One script after the other *)

Lemma files_after_two_runs (page1 page2 : Page) (m1 m2 : M W unit) :
  saves_artifact pw page1 m1 artifact_path ->
  saves_artifact pw page2 m2 artifact_path ->
  forall st,
    files_after_two pw page1 page2 (files st) (files (m1 st).2)
                    (one_after_the_other m1 m2 st).
Proof.
  intros H1 H2 st. unfold files_after_two, one_after_the_other.
  specialize (H1 st). destruct (m1 st) as [r1 st1].
  specialize (H2 st1). destruct (m2 st1) as [r2 st2]. simpl in *.
  destruct r1 as [[] | e1], r2 as [[] | e2].
  - destruct H1 as (img1 & u1 & u2 & _ & Hfiles1).
    destruct H2 as (img2 & v1 & v2 & Hshot2 & ->).
    exists img2, v1, v2. split; [exact Hshot2 | ].
    rewrite Hfiles1. apply insert_insert_eq.
  - destruct H1 as (img1 & u1 & u2 & Hshot1 & Hfiles1).
    split; [exact H2 | ]. exists img1, u1, u2.
    split; [exact Hshot1 | congruence].
  - destruct H2 as (img2 & v1 & v2 & Hshot2 & ->).
    exists img2, v1, v2. split; [exact Hshot2 | ]. rewrite H1. reflexivity.
  - split; [exact H2 | congruence].
Qed.

(** X7. The two scripts save to the same path.  When [verify_bets] is run
    after [test_realtime_updates], or after another [verify_bets], on the same
    files: if the later run returns, the file holds the later screenshot,
    whatever the earlier run did; if the later run raises, the files are
    exactly as the earlier run left them, so the file holds the earlier
    screenshot when the earlier run returned and nothing was written when it
    raised too.  No other file changes in any of the cases. *)
Theorem later_screenshot_replaces_earlier (page1 page2 : Page) (w : W)
    (fs : gmap string Image) :
  let realtime := test_realtime_updates pw page1 (init w fs) in
  let bets := verify_bets pw page1 (init w fs) in
  let both :=
    one_after_the_other (test_realtime_updates pw page1) (verify_bets pw page2)
                        (init w fs) in
  let twice :=
    one_after_the_other (verify_bets pw page1) (verify_bets pw page2)
                        (init w fs) in
  files_after_two pw page1 page2 fs (files realtime.2) both /\
  files_after_two pw page1 page2 fs (files bets.2) twice.
Proof.
  intros realtime bets both twice. split.
  - exact (files_after_two_runs page1 page2 _ _
             (test_realtime_updates_saves pw page1) (verify_bets_saves pw page2)
             (init w fs)).
  - exact (files_after_two_runs page1 page2 _ _
             (verify_bets_saves pw page1) (verify_bets_saves pw page2)
             (init w fs)).
Qed.

End Session.

(** Runs of [main] on the worlds where the session cannot be set up. *)
Example main_without_driver :
  main no_driver (init tt ∅) = (Raises Error, mkState tt ∅ [(CStart, false)]).
Proof. reflexivity. Qed.

Example main_without_browser :
  main no_browser (init tt ∅) =
  (Raises Error,
   mkState tt ∅ [(CStart, true); (CLaunch true, false); (CStop, true)]).
Proof. reflexivity. Qed.

(** The second run raises after the first returned: the first screenshot stays. *)
Example earlier_screenshot_survives_failed_run :
  let run :=
    one_after_the_other (test_realtime_updates server_gone_after_first 2%nat)
                        (verify_bets server_gone_after_first 2%nat)
                        (init 0%nat ∅) in
  run.1 = (Returns tt, Raises Error) /\
  files run.2 = {[ artifact_path := png ]}.
Proof. vm_compute. repeat split. Qed.
